(** * AptiPro voice test: the session controller and the answer evaluator

    A shallow embedding of [components/VoiceTest.tsx] (the timed,
    voice-driven test) and of the two functions of
    [services/geminiService.ts] it calls, [generateVoiceTestQuestions]
    and [evaluateSpokenAnswer].

    Strings are [string]s of 8-bit characters; [toLowerCase] and [trim]
    are the JavaScript functions restricted to ASCII.  Counters ([score],
    [timeLeft], indices) are [nat]: the code never drives them below
    zero. *)

From Stdlib Require Import String Ascii List Bool Arith Lia.
Import ListNotations.
Local Open Scope string_scope.
Local Open Scope list_scope.
Local Open Scope nat_scope.

(* ===================================================================== *)
(** ** JavaScript string helpers *)
(* ===================================================================== *)

Module JsString.

(** [c.toLowerCase()] for one ASCII character. *)
Definition lower_ascii (c : ascii) : ascii :=
  let n := nat_of_ascii c in
  if (65 <=? n)%nat && (n <=? 90)%nat then ascii_of_nat (n + 32) else c.

(** [s.toLowerCase()] *)
Fixpoint toLowerCase (s : string) : string :=
  match s with
  | EmptyString => EmptyString
  | String c r => String (lower_ascii c) (toLowerCase r)
  end.

(** [s.startsWith(t)] *)
Fixpoint startsWith (s t : string) : bool :=
  match t, s with
  | EmptyString, _ => true
  | String _ _, EmptyString => false
  | String b t', String a s' => Ascii.eqb a b && startsWith s' t'
  end.

(** [s.includes(t)]: [t] occurs in [s] at some position. *)
Fixpoint includes (s t : string) : bool :=
  startsWith s t ||
  match s with
  | EmptyString => false
  | String _ s' => includes s' t
  end.

(** White space removed by [trim] (ASCII part): TAB, LF, VT, FF, CR, SP. *)
Definition isWhiteSpace (c : ascii) : bool :=
  let n := nat_of_ascii c in
  ((9 <=? n)%nat && (n <=? 13)%nat) || (n =? 32)%nat.

Fixpoint trimStart (s : string) : string :=
  match s with
  | EmptyString => EmptyString
  | String c r => if isWhiteSpace c then trimStart r else s
  end.

Fixpoint trimEnd (s : string) : string :=
  match s with
  | EmptyString => EmptyString
  | String c r =>
      match trimEnd r with
      | EmptyString => if isWhiteSpace c then EmptyString else String c EmptyString
      | r' => String c r'
      end
  end.

(** [s.trim()] *)
Definition trim (s : string) : string := trimEnd (trimStart s).

(** JavaScript truthiness of a string: non-empty. *)
Definition truthy (s : string) : bool :=
  match s with EmptyString => false | String _ _ => true end.

(** [a || b] on strings. *)
Definition or_else (a b : string) : string := if truthy a then a else b.

(** [t] occurs in [s]. *)
Definition Substring (t s : string) : Prop :=
  exists pre post, s = (pre ++ t ++ post)%string.

End JsString.

(* ===================================================================== *)
(** ** services/geminiService.ts *)
(* ===================================================================== *)

(** [types.ts]: [VoiceQuestion]. *)
Record VoiceQuestion := mkQuestion { question : string; answer : string }.

(** The value [evaluateSpokenAnswer] resolves to. *)
Record EvalResult := mkResult { isCorrect : bool; feedback : string }.

Module Gemini.
Import JsString.

(** What the awaited [ai.models.generateContent] call and the
    [JSON.parse] after it amount to: a parsed value, or an exception
    (network error, malformed JSON) that lands in the [catch] block. *)
Inductive ApiOutcome (A : Type) :=
| ApiOk (value : A)
| ApiFail.
Arguments ApiOk {A} value.
Arguments ApiFail {A}.

(** [!API_KEY]: the key is [undefined] or the empty string. *)
Definition keyMissing (API_KEY : option string) : bool :=
  match API_KEY with
  | None => true
  | Some k => negb (truthy k)
  end.

(** [generateVoiceTestQuestions]: the questions, or [[]] without a key or
    on any failure. *)
Definition generateVoiceTestQuestions (API_KEY : option string)
    (o : ApiOutcome (list VoiceQuestion)) (topic difficulty : string) (count : nat)
    : list VoiceQuestion :=
  if keyMissing API_KEY then []
  else match o with
       | ApiOk questions => questions
       | ApiFail => []
       end.

Definition unavailableFeedback : string := "AI evaluation is unavailable.".
Definition correctFeedback : string := "Correct!".
(** The double-quote character of the template literal. *)
Definition dquote : string := String (ascii_of_nat 34) EmptyString.
Definition fallbackFeedback (correctAnswer : string) : string :=
  ("Sorry, an error occurred during evaluation. The expected answer is similar to "
   ++ dquote ++ correctAnswer ++ dquote ++ ".")%string.

(** [evaluateSpokenAnswer]. *)
Definition evaluateSpokenAnswer (API_KEY : option string) (o : ApiOutcome EvalResult)
    (question correctAnswer spokenAnswer : string) : EvalResult :=
  if keyMissing API_KEY then mkResult false unavailableFeedback
  else match o with
       | ApiOk result => result
       | ApiFail =>
           (* Fallback for simple check if AI fails *)
           if includes (toLowerCase spokenAnswer) (toLowerCase correctAnswer)
           then mkResult true correctFeedback
           else mkResult false (fallbackFeedback correctAnswer)
       end.

End Gemini.

(* ===================================================================== *)
(** ** components/VoiceTest.tsx *)
(* ===================================================================== *)

(** The component is run one event at a time.  An event (a click, a
    promise settling, a callback of the interval, of the speech synthesis
    or of the recogniser) runs its handler on the current state; React
    then renders, and the auto-speak effect runs if one of its
    dependencies has changed.  Callbacks memoised with [useCallback] see
    the state of the render they were made in: where that matters (the
    [isListening] read by [handleTimeUp]) the value is carried by the
    closure. *)

Module VoiceTest.
Import JsString Gemini.

Inductive TestPhase := Setup | Loading | InProgress | Evaluating | Finished.

(** 30 seconds per question *)
Definition QUESTION_TIME_LIMIT : nat := 30.

Definition timeUpFeedback : string := "Time's up! You need to be quicker.".
Definition generationFailedMessage : string :=
  "Failed to generate questions. Please try again.".

(** One entry of [event.results]: its [isFinal] flag and the transcript
    of its first alternative, [event.results[i][0].transcript]. *)
Record SpeechResult := mkSpeechResult { isFinal : bool; alternative0 : string }.

(** The argument of [recognition.onresult]. *)
Record SpeechEvent := mkSpeechEvent { resultIndex : nat; results : list SpeechResult }.

(** An interval registered with [window.setInterval].  Its callback calls
    the [handleTimeUp] of the render in which [startTimer] was obtained;
    [handleTimeUp] is memoised on [isListening], so the closure carries
    that render's value of [isListening]. *)
Record Interval := mkInterval { ivId : nat; ivListening : bool }.

(** The utterance handed to [speechSynthesis.speak]; its [onend] calls the
    [startTimer] of the render in which [speak] was obtained. *)
Record Utterance := mkUtterance { uttText : string; uttListening : bool }.

(** A call of [generateVoiceTestQuestions] that has not settled yet. *)
Record GenCall := mkGenCall { genTopic : string; genDifficulty : string; genCount : nat }.

(** A call of [evaluateSpokenAnswer] that has not settled yet. *)
Record EvalCall := mkEvalCall
  { callQuestion : string; callAnswer : string; callSpoken : string }.

(** What the component does to the outside, and the phases it sets, in
    the order in which it happens. *)
Inductive Effect :=
| ESetInterval (id : nat)
| EClearInterval (id : nat)
| ERecognitionStart
| ERecognitionStop
| ESpeechCancel
| ESpeechSpeak (text : string)
| ESetPhase (p : TestPhase)
| EGenerate (c : GenCall)
| EEvaluate (c : EvalCall)
| EAlert (message : string).

(** The [useState] cells and [useRef] cells of the component, followed by
    the part of the browser it talks to: the live intervals of [window],
    the utterance being spoken, the promises still pending, and the log
    of effects. *)
Record State := mkState
  { (* Test setup state *)
    topic : string;
    difficulty : string;
    questionCount : nat;
    (* Test execution state *)
    phase : TestPhase;
    questions : list VoiceQuestion;
    (* which array object [questions] is *)
    questionsVersion : nat;
    currentQuestionIndex : nat;
    score : nat;
    showConfirmEndModal : bool;
    (* Speech recognition state *)
    isListening : bool;
    transcript : string;
    isTranscriptFinal : bool;
    evaluationResult : option EvalResult;
    (* Timer state *)
    timeLeft : nat;
    timerIntervalRef : option nat;
    (* [recognitionRef.current] is not [null] *)
    recognitionRef : bool;
    (* browser *)
    intervals : list Interval;
    intervalSeq : nat;
    utterance : option Utterance;
    pendingGen : list GenCall;
    pendingEval : list EvalCall;
    trace : list Effect }.

Definition set_topic (v : string) (s : State) : State :=
  mkState v (difficulty s) (questionCount s) (phase s) (questions s)
    (questionsVersion s) (currentQuestionIndex s) (score s)
    (showConfirmEndModal s) (isListening s) (transcript s)
    (isTranscriptFinal s) (evaluationResult s) (timeLeft s)
    (timerIntervalRef s) (recognitionRef s) (intervals s) (intervalSeq s)
    (utterance s) (pendingGen s) (pendingEval s) (trace s).

Definition set_difficulty (v : string) (s : State) : State :=
  mkState (topic s) v (questionCount s) (phase s) (questions s)
    (questionsVersion s) (currentQuestionIndex s) (score s)
    (showConfirmEndModal s) (isListening s) (transcript s)
    (isTranscriptFinal s) (evaluationResult s) (timeLeft s)
    (timerIntervalRef s) (recognitionRef s) (intervals s) (intervalSeq s)
    (utterance s) (pendingGen s) (pendingEval s) (trace s).

Definition set_questionCount (v : nat) (s : State) : State :=
  mkState (topic s) (difficulty s) v (phase s) (questions s)
    (questionsVersion s) (currentQuestionIndex s) (score s)
    (showConfirmEndModal s) (isListening s) (transcript s)
    (isTranscriptFinal s) (evaluationResult s) (timeLeft s)
    (timerIntervalRef s) (recognitionRef s) (intervals s) (intervalSeq s)
    (utterance s) (pendingGen s) (pendingEval s) (trace s).

Definition set_phase (v : TestPhase) (s : State) : State :=
  mkState (topic s) (difficulty s) (questionCount s) v (questions s)
    (questionsVersion s) (currentQuestionIndex s) (score s)
    (showConfirmEndModal s) (isListening s) (transcript s)
    (isTranscriptFinal s) (evaluationResult s) (timeLeft s)
    (timerIntervalRef s) (recognitionRef s) (intervals s) (intervalSeq s)
    (utterance s) (pendingGen s) (pendingEval s) (trace s).

Definition set_questions (v : list VoiceQuestion) (s : State) : State :=
  mkState (topic s) (difficulty s) (questionCount s) (phase s) v
    (questionsVersion s) (currentQuestionIndex s) (score s)
    (showConfirmEndModal s) (isListening s) (transcript s)
    (isTranscriptFinal s) (evaluationResult s) (timeLeft s)
    (timerIntervalRef s) (recognitionRef s) (intervals s) (intervalSeq s)
    (utterance s) (pendingGen s) (pendingEval s) (trace s).

Definition set_questionsVersion (v : nat) (s : State) : State :=
  mkState (topic s) (difficulty s) (questionCount s) (phase s) (questions s) v
    (currentQuestionIndex s) (score s) (showConfirmEndModal s) (isListening s)
    (transcript s) (isTranscriptFinal s) (evaluationResult s) (timeLeft s)
    (timerIntervalRef s) (recognitionRef s) (intervals s) (intervalSeq s)
    (utterance s) (pendingGen s) (pendingEval s) (trace s).

Definition set_currentQuestionIndex (v : nat) (s : State) : State :=
  mkState (topic s) (difficulty s) (questionCount s) (phase s) (questions s)
    (questionsVersion s) v (score s) (showConfirmEndModal s) (isListening s)
    (transcript s) (isTranscriptFinal s) (evaluationResult s) (timeLeft s)
    (timerIntervalRef s) (recognitionRef s) (intervals s) (intervalSeq s)
    (utterance s) (pendingGen s) (pendingEval s) (trace s).

Definition set_score (v : nat) (s : State) : State :=
  mkState (topic s) (difficulty s) (questionCount s) (phase s) (questions s)
    (questionsVersion s) (currentQuestionIndex s) v (showConfirmEndModal s)
    (isListening s) (transcript s) (isTranscriptFinal s) (evaluationResult s)
    (timeLeft s) (timerIntervalRef s) (recognitionRef s) (intervals s)
    (intervalSeq s) (utterance s) (pendingGen s) (pendingEval s) (trace s).

Definition set_showConfirmEndModal (v : bool) (s : State) : State :=
  mkState (topic s) (difficulty s) (questionCount s) (phase s) (questions s)
    (questionsVersion s) (currentQuestionIndex s) (score s) v (isListening s)
    (transcript s) (isTranscriptFinal s) (evaluationResult s) (timeLeft s)
    (timerIntervalRef s) (recognitionRef s) (intervals s) (intervalSeq s)
    (utterance s) (pendingGen s) (pendingEval s) (trace s).

Definition set_isListening (v : bool) (s : State) : State :=
  mkState (topic s) (difficulty s) (questionCount s) (phase s) (questions s)
    (questionsVersion s) (currentQuestionIndex s) (score s)
    (showConfirmEndModal s) v (transcript s) (isTranscriptFinal s)
    (evaluationResult s) (timeLeft s) (timerIntervalRef s) (recognitionRef s)
    (intervals s) (intervalSeq s) (utterance s) (pendingGen s) (pendingEval s)
    (trace s).

Definition set_transcript (v : string) (s : State) : State :=
  mkState (topic s) (difficulty s) (questionCount s) (phase s) (questions s)
    (questionsVersion s) (currentQuestionIndex s) (score s)
    (showConfirmEndModal s) (isListening s) v (isTranscriptFinal s)
    (evaluationResult s) (timeLeft s) (timerIntervalRef s) (recognitionRef s)
    (intervals s) (intervalSeq s) (utterance s) (pendingGen s) (pendingEval s)
    (trace s).

Definition set_isTranscriptFinal (v : bool) (s : State) : State :=
  mkState (topic s) (difficulty s) (questionCount s) (phase s) (questions s)
    (questionsVersion s) (currentQuestionIndex s) (score s)
    (showConfirmEndModal s) (isListening s) (transcript s) v
    (evaluationResult s) (timeLeft s) (timerIntervalRef s) (recognitionRef s)
    (intervals s) (intervalSeq s) (utterance s) (pendingGen s) (pendingEval s)
    (trace s).

Definition set_evaluationResult (v : option EvalResult) (s : State) : State :=
  mkState (topic s) (difficulty s) (questionCount s) (phase s) (questions s)
    (questionsVersion s) (currentQuestionIndex s) (score s)
    (showConfirmEndModal s) (isListening s) (transcript s)
    (isTranscriptFinal s) v (timeLeft s) (timerIntervalRef s)
    (recognitionRef s) (intervals s) (intervalSeq s) (utterance s)
    (pendingGen s) (pendingEval s) (trace s).

Definition set_timeLeft (v : nat) (s : State) : State :=
  mkState (topic s) (difficulty s) (questionCount s) (phase s) (questions s)
    (questionsVersion s) (currentQuestionIndex s) (score s)
    (showConfirmEndModal s) (isListening s) (transcript s)
    (isTranscriptFinal s) (evaluationResult s) v (timerIntervalRef s)
    (recognitionRef s) (intervals s) (intervalSeq s) (utterance s)
    (pendingGen s) (pendingEval s) (trace s).

Definition set_timerIntervalRef (v : option nat) (s : State) : State :=
  mkState (topic s) (difficulty s) (questionCount s) (phase s) (questions s)
    (questionsVersion s) (currentQuestionIndex s) (score s)
    (showConfirmEndModal s) (isListening s) (transcript s)
    (isTranscriptFinal s) (evaluationResult s) (timeLeft s) v
    (recognitionRef s) (intervals s) (intervalSeq s) (utterance s)
    (pendingGen s) (pendingEval s) (trace s).

Definition set_recognitionRef (v : bool) (s : State) : State :=
  mkState (topic s) (difficulty s) (questionCount s) (phase s) (questions s)
    (questionsVersion s) (currentQuestionIndex s) (score s)
    (showConfirmEndModal s) (isListening s) (transcript s)
    (isTranscriptFinal s) (evaluationResult s) (timeLeft s)
    (timerIntervalRef s) v (intervals s) (intervalSeq s) (utterance s)
    (pendingGen s) (pendingEval s) (trace s).

Definition set_intervals (v : list Interval) (s : State) : State :=
  mkState (topic s) (difficulty s) (questionCount s) (phase s) (questions s)
    (questionsVersion s) (currentQuestionIndex s) (score s)
    (showConfirmEndModal s) (isListening s) (transcript s)
    (isTranscriptFinal s) (evaluationResult s) (timeLeft s)
    (timerIntervalRef s) (recognitionRef s) v (intervalSeq s) (utterance s)
    (pendingGen s) (pendingEval s) (trace s).

Definition set_intervalSeq (v : nat) (s : State) : State :=
  mkState (topic s) (difficulty s) (questionCount s) (phase s) (questions s)
    (questionsVersion s) (currentQuestionIndex s) (score s)
    (showConfirmEndModal s) (isListening s) (transcript s)
    (isTranscriptFinal s) (evaluationResult s) (timeLeft s)
    (timerIntervalRef s) (recognitionRef s) (intervals s) v (utterance s)
    (pendingGen s) (pendingEval s) (trace s).

Definition set_utterance (v : option Utterance) (s : State) : State :=
  mkState (topic s) (difficulty s) (questionCount s) (phase s) (questions s)
    (questionsVersion s) (currentQuestionIndex s) (score s)
    (showConfirmEndModal s) (isListening s) (transcript s)
    (isTranscriptFinal s) (evaluationResult s) (timeLeft s)
    (timerIntervalRef s) (recognitionRef s) (intervals s) (intervalSeq s) v
    (pendingGen s) (pendingEval s) (trace s).

Definition set_pendingGen (v : list GenCall) (s : State) : State :=
  mkState (topic s) (difficulty s) (questionCount s) (phase s) (questions s)
    (questionsVersion s) (currentQuestionIndex s) (score s)
    (showConfirmEndModal s) (isListening s) (transcript s)
    (isTranscriptFinal s) (evaluationResult s) (timeLeft s)
    (timerIntervalRef s) (recognitionRef s) (intervals s) (intervalSeq s)
    (utterance s) v (pendingEval s) (trace s).

Definition set_pendingEval (v : list EvalCall) (s : State) : State :=
  mkState (topic s) (difficulty s) (questionCount s) (phase s) (questions s)
    (questionsVersion s) (currentQuestionIndex s) (score s)
    (showConfirmEndModal s) (isListening s) (transcript s)
    (isTranscriptFinal s) (evaluationResult s) (timeLeft s)
    (timerIntervalRef s) (recognitionRef s) (intervals s) (intervalSeq s)
    (utterance s) (pendingGen s) v (trace s).

Definition set_trace (v : list Effect) (s : State) : State :=
  mkState (topic s) (difficulty s) (questionCount s) (phase s) (questions s)
    (questionsVersion s) (currentQuestionIndex s) (score s)
    (showConfirmEndModal s) (isListening s) (transcript s)
    (isTranscriptFinal s) (evaluationResult s) (timeLeft s)
    (timerIntervalRef s) (recognitionRef s) (intervals s) (intervalSeq s)
    (utterance s) (pendingGen s) (pendingEval s) v.

Notation "s |> f" := (f s) (at level 50, left associativity, only parsing).

Definition emit (e : Effect) (s : State) : State := set_trace (trace s ++ [e]) s.

Definition when (b : bool) (f : State -> State) (s : State) : State :=
  if b then f s else s.

(** [setPhase(p)], logged. *)
Definition setPhase (p : TestPhase) (s : State) : State :=
  s |> set_phase p |> emit (ESetPhase p).

(** [setQuestions(array)]: the state holds a new array object.  The
    counter stands for its identity, which is what a dependency array
    compares. *)
Definition setQuestions (v : list VoiceQuestion) (s : State) : State :=
  s |> set_questions v |> set_questionsVersion (S (questionsVersion s)).

(** *** The browser *)

(** [window.setInterval(callback, 1000)]: a fresh non-zero handle. *)
Definition window_setInterval (listening : bool) (s : State) : nat * State :=
  let id := S (intervalSeq s) in
  (id, s |> set_intervalSeq id
         |> set_intervals (intervals s ++ [mkInterval id listening])
         |> emit (ESetInterval id)).

(** [clearInterval(id)] *)
Definition window_clearInterval (id : nat) (s : State) : State :=
  s |> set_intervals (filter (fun iv => negb (ivId iv =? id)) (intervals s))
    |> emit (EClearInterval id).

Definition findInterval (id : nat) (s : State) : option Interval :=
  find (fun iv => ivId iv =? id) (intervals s).

(** [window.speechSynthesis.cancel()]: the utterance in flight is dropped
    and its [onend] does not run. *)
Definition speechSynthesis_cancel (s : State) : State :=
  s |> set_utterance None |> emit ESpeechCancel.

(** [window.speechSynthesis.speak(utterance)] *)
Definition speechSynthesis_speak (u : Utterance) (s : State) : State :=
  s |> set_utterance (Some u) |> emit (ESpeechSpeak (uttText u)).

(** *** The callbacks of the component *)

(** A timer handle is truthy when it is not [0]. *)
Definition stopTimer (s : State) : State :=
  match timerIntervalRef s with
  | Some id =>
      if id =? 0 then s
      else s |> window_clearInterval id |> set_timerIntervalRef None
  | None => s
  end.

Definition timeUpResult : EvalResult := mkResult false timeUpFeedback.

(** [handleTimeUp], as memoised when [isListening] was [listening]. *)
Definition handleTimeUp (listening : bool) (s : State) : State :=
  s |> stopTimer
    |> when (recognitionRef s && listening) (emit ERecognitionStop)
    |> setPhase Evaluating
    |> set_evaluationResult (Some timeUpResult)
    |> setPhase InProgress.

(** The callback given to [setInterval]: [setTimeLeft(prev => ...)]. *)
Definition intervalCallback (listening : bool) (s : State) : State :=
  if timeLeft s <=? 1
  then s |> handleTimeUp listening |> set_timeLeft 0
  else s |> set_timeLeft (timeLeft s - 1).

Definition startTimer (listening : bool) (s : State) : State :=
  let s1 := s |> stopTimer |> set_timeLeft QUESTION_TIME_LIMIT in
  let '(id, s2) := window_setInterval listening s1 in
  s2 |> set_timerIntervalRef (Some id).

(** [handleAnswerSubmission] up to its [await].  [questions[i]] is
    [undefined] out of range, and reading [.question] of it throws: the
    promise is rejected after the phase was set. *)
Definition handleAnswerSubmission (spokenAnswer : string) (s : State) : State :=
  let s1 := s |> stopTimer |> setPhase Evaluating in
  match nth_error (questions s) (currentQuestionIndex s) with
  | None => s1
  | Some currentQuestion =>
      let c := mkEvalCall (question currentQuestion) (answer currentQuestion) spokenAnswer in
      s1 |> set_pendingEval (pendingEval s1 ++ [c]) |> emit (EEvaluate c)
  end.

(** [handleAnswerSubmission] after its [await], with the [result]. *)
Definition commitEvaluation (result : EvalResult) (s : State) : State :=
  s |> set_evaluationResult (Some result)
    |> when (isCorrect result) (fun s => set_score (score s + 1) s)
    |> setPhase InProgress.

(** The loop of [recognition.onresult]: the final and the interim text. *)
Fixpoint collectTranscripts (rs : list SpeechResult) : string * string :=
  match rs with
  | [] => (EmptyString, EmptyString)
  | r :: rs' =>
      let '(finalTranscript, interimTranscript) := collectTranscripts rs' in
      if isFinal r
      then ((alternative0 r ++ finalTranscript)%string, interimTranscript)
      else (finalTranscript, (alternative0 r ++ interimTranscript)%string)
  end.

Definition finalTranscriptOf (event : SpeechEvent) : string :=
  fst (collectTranscripts (skipn (resultIndex event) (results event))).

Definition interimTranscriptOf (event : SpeechEvent) : string :=
  snd (collectTranscripts (skipn (resultIndex event) (results event))).

(** [recognition.onresult] of the recogniser in [recognitionRef.current].
    The effect that creates it runs again whenever
    [handleAnswerSubmission] changes, so the handler sees the current
    [questions] and [currentQuestionIndex]. *)
Definition onresult (event : SpeechEvent) (s : State) : State :=
  let finalTranscript := finalTranscriptOf event in
  let interimTranscript := interimTranscriptOf event in
  s |> set_transcript (or_else finalTranscript interimTranscript)
    |> set_isTranscriptFinal (truthy finalTranscript)
    |> when (truthy finalTranscript) (handleAnswerSubmission (trim finalTranscript)).

(** [speak], as memoised when [isListening] was [listening]. *)
Definition speak (listening : bool) (text : string) (s : State) : State :=
  s |> speechSynthesis_cancel
    |> speechSynthesis_speak (mkUtterance text listening).

(** [utterance.onend] *)
Definition utteranceOnEnd (s : State) : State :=
  match utterance s with
  | Some u => s |> set_utterance None |> startTimer (uttListening u)
  | None => s
  end.

(** [startTest] up to its [await]. *)
Definition startTest (s : State) : State :=
  let c := mkGenCall (topic s) (difficulty s) (questionCount s) in
  s |> setPhase Loading
    |> set_pendingGen (pendingGen s ++ [c])
    |> emit (EGenerate c).

(** [startTest] after its [await]. *)
Definition startTestResume (fetchedQuestions : list VoiceQuestion) (s : State) : State :=
  if 0 <? length fetchedQuestions
  then s |> setQuestions fetchedQuestions
         |> set_currentQuestionIndex 0
         |> set_score 0
         |> set_transcript EmptyString
         |> set_isTranscriptFinal false
         |> set_evaluationResult None
         |> setPhase InProgress
  else s |> emit (EAlert generationFailedMessage)
         |> setPhase Setup.

Definition toggleListening (s : State) : State :=
  if negb (recognitionRef s) || isListening s
     || (match evaluationResult s with Some _ => true | None => false end)
     || (timeLeft s =? 0)
  then s
  else s |> set_transcript EmptyString
         |> set_isTranscriptFinal false
         |> set_evaluationResult None
         |> speechSynthesis_cancel
         |> emit ERecognitionStart.

(** For an empty list JavaScript compares with [-1] and [nat] with [0];
    an index is never below either. *)
Definition goToNextQuestion (s : State) : State :=
  let s1 := s |> set_transcript EmptyString
              |> set_isTranscriptFinal false
              |> set_evaluationResult None
              |> stopTimer in
  if currentQuestionIndex s <? length (questions s) - 1
  then s1 |> set_currentQuestionIndex (currentQuestionIndex s + 1)
  else s1 |> setPhase Finished.

Definition retryQuestion (s : State) : State :=
  s |> set_transcript EmptyString
    |> set_isTranscriptFinal false
    |> set_evaluationResult None
    |> startTimer (isListening s)
    |> when (recognitionRef s && negb (isListening s)) (emit ERecognitionStart).

Definition endTest (s : State) : State :=
  s |> stopTimer
    |> set_showConfirmEndModal false
    |> setPhase Finished.

Definition resetToSetup (s : State) : State :=
  s |> speechSynthesis_cancel
    |> stopTimer
    |> setPhase Setup
    |> set_currentQuestionIndex 0
    |> set_score 0
    |> setQuestions []
    |> set_transcript EmptyString
    |> set_isTranscriptFinal false
    |> set_evaluationResult None.

(** *** What is on screen *)

Definition phase_eqb (p q : TestPhase) : bool :=
  match p, q with
  | Setup, Setup | Loading, Loading | InProgress, InProgress
  | Evaluating, Evaluating | Finished, Finished => true
  | _, _ => false
  end.

Definition isSome {A : Type} (o : option A) : bool :=
  match o with Some _ => true | None => false end.

(** The last [return] of the component: neither the setup form, nor the
    spinner, nor the final score. *)
Definition testView (s : State) : bool :=
  match phase s with
  | InProgress | Evaluating => true
  | Setup | Loading | Finished => false
  end.

(** [disabled] of the microphone button. *)
Definition micDisabled (s : State) : bool :=
  isListening s || phase_eqb (phase s) Evaluating
  || isSome (evaluationResult s) || (timeLeft s =? 0).

(** The result panel: [(transcript || evaluationResult) && ...] and,
    inside it, [evaluationResult && ...]. *)
Definition resultPanel (s : State) : option EvalResult :=
  if truthy (transcript s) || isSome (evaluationResult s)
  then evaluationResult s
  else None.

(** The "Try Again" button. *)
Definition retryRendered (s : State) : bool :=
  testView s &&
  match resultPanel s with
  | Some r => negb (isCorrect r) && (0 <? timeLeft s)
  | None => false
  end.

(** The "Next Question" / "Finish Test" button. *)
Definition nextRendered (s : State) : bool :=
  testView s && isSome (resultPanel s).

Definition topicOptions : list string :=
  ["Quantitative Aptitude"; "Verbal Ability"; "General Knowledge"].
Definition difficultyOptions : list string := ["Easy"; "Medium"; "Hard"].

(** *** Events *)

Inductive Event :=
(* the setup form *)
| SelectTopic (t : string)
| SelectDifficulty (d : string)
| SlideQuestionCount (n : nat)
| ClickStart
(* promises settling *)
| GeneratorSettles (i : nat) (o : ApiOutcome (list VoiceQuestion))
| EvaluatorSettles (i : nat) (o : ApiOutcome EvalResult)
(* speech synthesis, the interval, speech recognition *)
| UtteranceEnds
| IntervalFires (id : nat)
| RecognitionStarts
| RecognitionEnds
| RecognitionError
| RecognitionResult (event : SpeechEvent)
(* the test screen *)
| ClickMic
| ClickReadAloud
| ClickRetry
| ClickNext
| ClickX
| ClickContinueTest
| ClickEndTest
(* the final screen *)
| ClickTakeAnother.

(** An event can happen: its button is rendered and not disabled, its
    interval is live, its utterance is being spoken, its promise pending,
    the recogniser exists. *)
Definition enabled (s : State) (e : Event) : bool :=
  match e with
  | SelectTopic t => phase_eqb (phase s) Setup && existsb (String.eqb t) topicOptions
  | SelectDifficulty d =>
      phase_eqb (phase s) Setup && existsb (String.eqb d) difficultyOptions
  | SlideQuestionCount n => phase_eqb (phase s) Setup && (2 <=? n) && (n <=? 12)
  | ClickStart => phase_eqb (phase s) Setup
  | GeneratorSettles i _ => i <? length (pendingGen s)
  | EvaluatorSettles i _ => i <? length (pendingEval s)
  | UtteranceEnds => isSome (utterance s)
  | IntervalFires id => isSome (findInterval id s)
  | RecognitionStarts | RecognitionEnds | RecognitionError | RecognitionResult _ =>
      recognitionRef s
  | ClickMic => testView s && negb (micDisabled s)
  | ClickReadAloud => testView s
  | ClickRetry => retryRendered s
  | ClickNext => nextRendered s
  | ClickX => testView s
  | ClickContinueTest | ClickEndTest => testView s && showConfirmEndModal s
  | ClickTakeAnother => phase_eqb (phase s) Finished
  end.

Definition removeAt {A : Type} (i : nat) (l : list A) : list A :=
  firstn i l ++ skipn (S i) l.

(** The handler of an event. *)
Definition fire (API_KEY : option string) (e : Event) (s : State) : State :=
  match e with
  | SelectTopic t => set_topic t s
  | SelectDifficulty d => set_difficulty d s
  | SlideQuestionCount n => set_questionCount n s
  | ClickStart => startTest s
  | GeneratorSettles i o =>
      match nth_error (pendingGen s) i with
      | Some c =>
          s |> set_pendingGen (removeAt i (pendingGen s))
            |> startTestResume
                 (generateVoiceTestQuestions API_KEY o
                    (genTopic c) (genDifficulty c) (genCount c))
      | None => s
      end
  | EvaluatorSettles i o =>
      match nth_error (pendingEval s) i with
      | Some c =>
          s |> set_pendingEval (removeAt i (pendingEval s))
            |> commitEvaluation
                 (evaluateSpokenAnswer API_KEY o
                    (callQuestion c) (callAnswer c) (callSpoken c))
      | None => s
      end
  | UtteranceEnds => utteranceOnEnd s
  | IntervalFires id =>
      match findInterval id s with
      | Some iv => intervalCallback (ivListening iv) s
      | None => s
      end
  | RecognitionStarts => set_isListening true s
  | RecognitionEnds => set_isListening false s
  | RecognitionError => set_isListening false s
  | RecognitionResult event => onresult event s
  | ClickMic => toggleListening s
  | ClickReadAloud =>
      match nth_error (questions s) (currentQuestionIndex s) with
      | Some currentQuestion => speak (isListening s) (question currentQuestion) s
      | None => s
      end
  | ClickRetry => retryQuestion s
  | ClickNext => goToNextQuestion s
  | ClickX => set_showConfirmEndModal true s
  | ClickContinueTest => set_showConfirmEndModal false s
  | ClickEndTest => endTest s
  | ClickTakeAnother => resetToSetup s
  end.

(** *** The auto-speak effect *)

(** The dependency array [[currentQuestionIndex, phase, questions, speak,
    evaluationResult]], compared by identity.  [questions] is the array
    object.  [speak] is memoised on [startTimer], that on [handleTimeUp],
    that on [isListening]: it is a new function exactly when
    [isListening] has changed.  [evaluationResult] is compared by value:
    a new object with the old content is a result all the same, and the
    effect does nothing when there is one. *)
Definition SpeakDeps : Type :=
  (nat * TestPhase * nat * bool * option EvalResult)%type.

Definition speakDeps (s : State) : SpeakDeps :=
  (currentQuestionIndex s, phase s, questionsVersion s, isListening s,
   evaluationResult s).

Definition TestPhase_eq_dec (p q : TestPhase) : {p = q} + {p <> q}.
Proof. decide equality. Defined.

Definition VoiceQuestion_eq_dec (p q : VoiceQuestion) : {p = q} + {p <> q}.
Proof. decide equality; apply string_dec. Defined.

Definition EvalResult_eq_dec (p q : EvalResult) : {p = q} + {p <> q}.
Proof. decide equality; [apply string_dec | apply bool_dec]. Defined.

Definition SpeakDeps_eq_dec (p q : SpeakDeps) : {p = q} + {p <> q}.
Proof.
  repeat decide equality;
    try apply string_dec; try apply bool_dec.
Defined.

(** [useEffect(() => { if (...) speak(questions[currentQuestionIndex].question) }, deps)]
    after the render that follows a handler: it runs when a dependency
    has changed. *)
Definition autoSpeak (before after : State) : State :=
  if SpeakDeps_eq_dec (speakDeps before) (speakDeps after) then after
  else if phase_eqb (phase after) InProgress
          && (0 <? length (questions after))
          && negb (isSome (evaluationResult after))
  then match nth_error (questions after) (currentQuestionIndex after) with
       | Some q => speak (isListening after) (question q) after
       | None => after
       end
  else after.

(** One event: its handler, the render, the effect. *)
Definition step (API_KEY : option string) (s : State) (e : Event) : State :=
  if enabled s e then autoSpeak s (fire API_KEY e s) else s.

Definition run (API_KEY : option string) (s : State) (es : list Event) : State :=
  fold_left (step API_KEY) es s.

(** Every event of the run could happen when it did. *)
Fixpoint feasible (API_KEY : option string) (s : State) (es : list Event) : bool :=
  match es with
  | [] => true
  | e :: es' => enabled s e && feasible API_KEY (step API_KEY s e) es'
  end.

(** The component when it is mounted; [supported] says whether the
    browser has [SpeechRecognition]. *)
Definition initialState (supported : bool) : State :=
  mkState "Quantitative Aptitude" "Medium" 5
          Setup [] 0 0 0 false
          false EmptyString false None
          QUESTION_TIME_LIMIT None supported
          [] 0 None [] [] [].

(** The live intervals are exactly the one the ref holds. *)
Definition timerConsistent (s : State) : bool :=
  match timerIntervalRef s, intervals s with
  | None, [] => true
  | Some id, [iv] => (ivId iv =? id) && negb (id =? 0)
  | _, _ => false
  end.

(** The event commits a correct result: an evaluation settles and its
    result is correct. *)
Definition commitsCorrect (API_KEY : option string) (s : State) (e : Event) : bool :=
  match e with
  | EvaluatorSettles i o =>
      match nth_error (pendingEval s) i with
      | Some c =>
          isCorrect (evaluateSpokenAnswer API_KEY o
                       (callQuestion c) (callAnswer c) (callSpoken c))
      | None => false
      end
  | _ => false
  end.

(** The number of correct results the run commits. *)
Fixpoint correctCommits (API_KEY : option string) (s : State) (es : list Event) : nat :=
  match es with
  | [] => 0
  | e :: es' =>
      (if commitsCorrect API_KEY s e then 1 else 0)
      + correctCommits API_KEY (step API_KEY s e) es'
  end.

(** The events at which a session begins or is discarded. *)
Definition sessionBoundary (e : Event) : bool :=
  match e with
  | GeneratorSettles _ _ | ClickTakeAnother => true
  | _ => false
  end.

End VoiceTest.

(* ===================================================================== *)
(** ** Sessions used as examples *)
(* ===================================================================== *)

Module Scenario.
Import JsString Gemini VoiceTest.

Definition key : option string := Some "k".

Definition q0 : VoiceQuestion := mkQuestion "Capital of France?" "Paris".
Definition q1 : VoiceQuestion := mkQuestion "Two plus two?" "4".
Definition q2 : VoiceQuestion := mkQuestion "Opposite of hot?" "Cold".

(** The recogniser delivers one final result with the text [t]. *)
Definition final (t : string) : Event :=
  RecognitionResult (mkSpeechEvent 0 [mkSpeechResult true t]).

Definition emptyFinal : SpeechEvent := mkSpeechEvent 0 [mkSpeechResult true EmptyString].

(** The test starts with two questions; the first one has been read out
    and its timer (handle 1) runs. *)
Definition toAwaiting : list Event :=
  [ClickStart; GeneratorSettles 0 (ApiOk [q0; q1]); UtteranceEnds].

(** The user taps the microphone and the recogniser starts.  The change
    of [isListening] makes the effect read the question out again; when
    that ends the timer is restarted (handle 2). *)
Definition toListening : list Event :=
  toAwaiting ++ [ClickMic; RecognitionStarts; UtteranceEnds].

(** 29 seconds pass without an answer. *)
Definition toLastSecond : list Event :=
  toListening ++ repeat (IntervalFires 2) 29.

(** The 30th second: time is up. *)
Definition toTimedOut : list Event := toLastSecond ++ [IntervalFires 2].

(** The recogniser, stopped by the timeout, delivers what it heard, and
    the model judges it correct. *)
Definition lateAnswer : list Event :=
  [final "Paris"; RecognitionEnds;
   EvaluatorSettles 0 (ApiOk (mkResult true "Yes, Paris."))].

(** A wrong answer after 20 seconds: 10 seconds remain. *)
Definition toWrongAnswer : list Event :=
  toListening ++ repeat (IntervalFires 2) 20
  ++ [final "London"; RecognitionEnds;
      EvaluatorSettles 0 (ApiOk (mkResult false "No, it is Paris."))].


(** One question is read out, answered by voice, and judged by the local
    check because the call to the model fails. *)
Definition answerWith (a : string) : list Event :=
  [UtteranceEnds; ClickMic; RecognitionStarts; final a; RecognitionEnds;
   EvaluatorSettles 0 ApiFail].

(** Two questions were asked for, the generator sends three, and all
    three are answered correctly. *)
Definition threeForTwo : list Event :=
  [SlideQuestionCount 2; ClickStart; GeneratorSettles 0 (ApiOk [q0; q1; q2])]
  ++ answerWith "Paris" ++ [ClickNext]
  ++ answerWith "4" ++ [ClickNext]
  ++ answerWith "cold".

(** Two questions; the first is answered correctly. *)
Definition firstAnswered : list Event :=
  [SlideQuestionCount 2; ClickStart; GeneratorSettles 0 (ApiOk [q0; q1])]
  ++ answerWith "Paris".

(** With the result on screen the user has the question read aloud again;
    the end of the utterance starts the timer (handle [id]), which runs
    out and replaces the result by the time's-up result.  Read aloud once
    more, the timer shows 30 seconds and "Try Again" is offered: the same
    question is answered correctly again. *)
Definition answerAgain (id : nat) : list Event :=
  [ClickReadAloud; UtteranceEnds] ++ repeat (IntervalFires id) 30
  ++ [ClickReadAloud; UtteranceEnds; ClickRetry; RecognitionStarts;
      final "Paris"; RecognitionEnds; EvaluatorSettles 0 ApiFail].

Definition scoredThrice : list Event := firstAnswered ++ answerAgain 2 ++ answerAgain 5.

Definition mounted : State := initialState true.
Definition awaiting : State := run key mounted toAwaiting.
Definition listening : State := run key mounted toListening.
Definition lastSecond : State := run key mounted toLastSecond.
Definition timedOut : State := run key mounted toTimedOut.
Definition wrongAnswer : State := run key mounted toWrongAnswer.

End Scenario.

(* ===================================================================== *)
(** ** Properties of the answer evaluator *)
(* ===================================================================== *)

Import JsString Gemini VoiceTest Scenario.

Lemma startsWith_spec (s t : string) :
  startsWith s t = true <-> exists post, s = (t ++ post)%string.
Proof.
  revert s; induction t as [|b t IH]; intros s.
  - split; [intros _; now exists s | intros _; now destruct s].
  - destruct s as [|a s]; cbn [startsWith].
    + split; [discriminate | intros [post H]; discriminate].
    + rewrite andb_true_iff, Ascii.eqb_eq, IH. split.
      * intros [-> [post ->]]. now exists post.
      * intros [post H]. injection H as -> ->. split; [reflexivity | now exists post].
Qed.

Lemma includes_spec (s t : string) :
  includes s t = true <-> exists pre post, s = (pre ++ t ++ post)%string.
Proof.
  induction s as [|a s IH].
  - cbn [includes]. rewrite orb_false_r, startsWith_spec. split.
    + intros [post H]. now exists EmptyString, post.
    + intros [pre [post H]]. destruct pre; simpl in H.
      * now exists post.
      * discriminate.
  - cbn [includes]. rewrite orb_true_iff, startsWith_spec, IH. split.
    + intros [[post H] | [pre [post H]]].
      * now exists EmptyString, post.
      * exists (String a pre), post. simpl. now rewrite H.
    + intros [pre [post H]]. destruct pre as [|c pre]; simpl in H.
      * left. now exists post.
      * right. injection H as _ H. now exists pre, post.
Qed.

Lemma includes_Substring (s t : string) : includes s t = true <-> Substring t s.
Proof. apply includes_spec. Qed.

Lemma fallbackFeedback_names_answer (correctAnswer : string) :
  Substring correctAnswer (fallbackFeedback correctAnswer).
Proof.
  unfold Substring, fallbackFeedback.
  exists ("Sorry, an error occurred during evaluation. The expected answer is similar to "
          ++ dquote)%string, (dquote ++ ".")%string.
  reflexivity.
Qed.

(** C2. When a key is configured and the call to the model fails,
    [evaluateSpokenAnswer] answers from the local check: if the expected
    answer, lowercased, occurs in the spoken answer, lowercased, the
    result is correct with the feedback "Correct!"; otherwise it is
    incorrect and the feedback contains the expected answer. *)
Theorem evaluateSpokenAnswer_fallback
    (API_KEY : option string) (question correctAnswer spokenAnswer : string) :
  keyMissing API_KEY = false ->
  let r := evaluateSpokenAnswer API_KEY ApiFail question correctAnswer spokenAnswer in
  (Substring (toLowerCase correctAnswer) (toLowerCase spokenAnswer) ->
     r = mkResult true "Correct!")
  /\ (~ Substring (toLowerCase correctAnswer) (toLowerCase spokenAnswer) ->
      isCorrect r = false
      /\ feedback r = fallbackFeedback correctAnswer
      /\ Substring correctAnswer (feedback r)).
Proof.
  intros Hkey r. subst r. unfold evaluateSpokenAnswer. rewrite Hkey.
  destruct (includes (toLowerCase spokenAnswer) (toLowerCase correctAnswer)) eqn:Hinc.
  - split; [reflexivity|]. intros Hn. apply includes_Substring in Hinc. contradiction.
  - split.
    + intros Hsub. apply includes_Substring in Hsub. congruence.
    + intros _. cbn [isCorrect feedback]. repeat split.
      apply fallbackFeedback_names_answer.
Qed.

Lemma evaluateSpokenAnswer_fallback_witness :
  keyMissing (Some "k") = false
  /\ (Substring (toLowerCase "Paris") (toLowerCase "I think it's paris") ->
      evaluateSpokenAnswer (Some "k") ApiFail "Capital of France?" "Paris"
        "I think it's paris" = mkResult true "Correct!").
Proof.
  split; [reflexivity|].
  apply (evaluateSpokenAnswer_fallback (Some "k") "Capital of France?" "Paris"
           "I think it's paris"); reflexivity.
Defined.

(** C10. Without an API key [evaluateSpokenAnswer] resolves to an
    incorrect result with the feedback "AI evaluation is unavailable.",
    whatever the answers are and whatever the model would have said: the
    substring check is not consulted. *)
Theorem evaluateSpokenAnswer_without_key
    (API_KEY : option string) (o : ApiOutcome EvalResult)
    (question correctAnswer spokenAnswer : string) :
  keyMissing API_KEY = true ->
  evaluateSpokenAnswer API_KEY o question correctAnswer spokenAnswer
  = mkResult false "AI evaluation is unavailable.".
Proof. intros Hkey. unfold evaluateSpokenAnswer. now rewrite Hkey. Qed.

Lemma evaluateSpokenAnswer_without_key_witness :
  keyMissing None = true
  /\ includes (toLowerCase "it is Paris") (toLowerCase "Paris") = true
  /\ evaluateSpokenAnswer None ApiFail "Capital of France?" "Paris" "it is Paris"
     = mkResult false "AI evaluation is unavailable.".
Proof.
  split; [reflexivity|]. split; [reflexivity|].
  apply (evaluateSpokenAnswer_without_key None ApiFail); reflexivity.
Defined.

(* ===================================================================== *)
(** ** Properties of the session controller *)
(* ===================================================================== *)

(** *** Tactics *)

Ltac unfold_handlers :=
  unfold step, fire, autoSpeak, speak, utteranceOnEnd, intervalCallback, handleTimeUp,
    onresult, handleAnswerSubmission, commitEvaluation, startTest, startTestResume,
    toggleListening, goToNextQuestion, retryQuestion, endTest, resetToSetup,
    findInterval, startTimer, stopTimer, when in *.

Ltac split_match :=
  match goal with
  | |- context [match ?x with _ => _ end] =>
      lazymatch x with
      | context [match _ with _ => _ end] => fail
      | _ => destruct x eqn:?
      end
  end.

(** [stopTimer] touches the timer ref, the live intervals and the log. *)
Ltac stopTimer_frame :=
  repeat match goal with
  | |- context [?f (stopTimer ?s)] =>
      lazymatch f with
      | timerIntervalRef => fail
      | intervals => fail
      | trace => fail
      | _ => let H := fresh in
             assert (H : f (stopTimer s) = f s)
               by (unfold stopTimer; repeat split_match; reflexivity);
             rewrite H; clear H
      end
  end.

(** The effect touches the utterance and the log. *)
Ltac autoSpeak_frame :=
  repeat match goal with
  | |- context [?f (autoSpeak ?a ?b)] =>
      lazymatch f with
      | utterance => fail
      | trace => fail
      | _ => let H := fresh in
             assert (H : f (autoSpeak a b) = f b)
               by (unfold autoSpeak; repeat split_match; reflexivity);
             rewrite H; clear H
      end
  end.

(** *** Lists *)

Lemma nth_error_snoc {A : Type} (l : list A) (x : A) :
  nth_error (l ++ [x]) (length l) = Some x.
Proof. rewrite nth_error_app2, Nat.sub_diag by lia. reflexivity. Qed.

Lemma removeAt_snoc {A : Type} (l : list A) (x : A) :
  removeAt (length l) (l ++ [x]) = l.
Proof.
  unfold removeAt. induction l as [|a l IH]; [reflexivity|].
  cbn [length app firstn skipn]. cbn [skipn] in IH. now rewrite IH.
Qed.

(** *** The timer ref and the live intervals *)

Lemma timerConsistent_cases (s : State) :
  timerConsistent s = true ->
  (timerIntervalRef s = None /\ intervals s = [])
  \/ (exists id listening,
        timerIntervalRef s = Some id /\ intervals s = [mkInterval id listening] /\ id <> 0).
Proof.
  unfold timerConsistent. intros H.
  destruct (timerIntervalRef s) as [id|], (intervals s) as [|[i l] [|]]; try discriminate.
  - right. cbn in H. apply andb_true_iff in H as [H1 H2].
    apply Nat.eqb_eq in H1. apply negb_true_iff, Nat.eqb_neq in H2. subst. eauto.
  - now left.
Qed.

Lemma running_interval (s : State) (id : nat) :
  timerConsistent s = true -> timerIntervalRef s = Some id ->
  exists listening, intervals s = [mkInterval id listening] /\ (id =? 0) = false.
Proof.
  intros H Hr. destruct (timerConsistent_cases s H) as [[Hr' _] | (id' & l & Hr' & Hi & Hid)].
  - congruence.
  - rewrite Hr in Hr'. injection Hr' as <-. exists l. split; [exact Hi|]. now apply Nat.eqb_neq.
Qed.

Lemma stopTimer_stopped (s : State) :
  timerConsistent s = true ->
  timerIntervalRef (stopTimer s) = None /\ intervals (stopTimer s) = [].
Proof.
  intros H. destruct (timerConsistent_cases s H) as [[Hr Hi] | (id & l & Hr & Hi & Hid)];
    unfold stopTimer; rewrite Hr.
  - now split.
  - apply Nat.eqb_neq in Hid. rewrite Hid. cbn. rewrite Hi. cbn.
    rewrite Nat.eqb_refl. now split.
Qed.

Lemma stopTimer_idem (s : State) : stopTimer (stopTimer s) = stopTimer s.
Proof.
  unfold stopTimer at 2 3. destruct (timerIntervalRef s) as [id|] eqn:Hr.
  - destruct (id =? 0) eqn:Hid.
    + unfold stopTimer. now rewrite Hr, Hid.
    + reflexivity.
  - unfold stopTimer. now rewrite Hr.
Qed.

Lemma stopTimer_trace (s : State) : exists fx, trace (stopTimer s) = trace s ++ fx.
Proof.
  unfold stopTimer. repeat split_match; cbn; eauto.
  all: exists []; now rewrite app_nil_r.
Qed.

Ltac brute_consistent s H :=
  let Hr := fresh "Hr" in let Hi := fresh "Hi" in let Hid := fresh "Hid" in
  let id := fresh "id" in let l := fresh "l" in
  destruct (timerConsistent_cases s H) as [[Hr Hi] | (id & l & Hr & Hi & Hid)];
    try (apply Nat.eqb_neq in Hid);
    unfold timerConsistent; unfold_handlers;
    repeat (progress (cbn; rewrite ?Hr, ?Hi, ?Hid, ?Nat.eqb_refl));
    repeat (split_match; repeat (progress (cbn; rewrite ?Hr, ?Hi, ?Hid, ?Nat.eqb_refl)));
    try reflexivity; try congruence.

Lemma autoSpeak_consistent (before after : State) :
  timerConsistent (autoSpeak before after) = timerConsistent after.
Proof. unfold autoSpeak. repeat split_match; reflexivity. Qed.

Lemma fire_consistent (API_KEY : option string) (e : Event) (s : State) :
  timerConsistent s = true -> timerConsistent (fire API_KEY e s) = true.
Proof.
  intros H. destruct e; cbn [fire]; try assumption.
  all: solve [brute_consistent s H].
Qed.

(** Whatever happens, the ref holds the handle of the one live interval,
    or is empty when none is live. *)
Lemma step_timerConsistent (API_KEY : option string) (s : State) (e : Event) :
  timerConsistent s = true -> timerConsistent (step API_KEY s e) = true.
Proof.
  intros H. unfold step. destruct (enabled s e); [|assumption].
  rewrite autoSpeak_consistent. now apply fire_consistent.
Qed.

Lemma run_timerConsistent (API_KEY : option string) (es : list Event) (s : State) :
  timerConsistent s = true -> timerConsistent (run API_KEY s es) = true.
Proof.
  revert s. induction es as [|e es IH]; intros s H; [exact H|].
  apply IH, step_timerConsistent, H.
Qed.

Lemma reachable_timerConsistent (API_KEY : option string) (supported : bool)
    (es : list Event) :
  timerConsistent (run API_KEY (initialState supported) es) = true.
Proof. now apply run_timerConsistent. Qed.

(** *** When the effect does nothing *)

Lemma autoSpeak_result_shown (before after : State) :
  isSome (evaluationResult after) = true -> autoSpeak before after = after.
Proof.
  intros H. unfold autoSpeak. rewrite H, andb_false_r.
  now destruct (SpeakDeps_eq_dec _ _).
Qed.

Lemma autoSpeak_other_phase (before after : State) :
  phase_eqb (phase after) InProgress = false -> autoSpeak before after = after.
Proof.
  intros H. unfold autoSpeak. rewrite H. now destruct (SpeakDeps_eq_dec _ _).
Qed.

Lemma autoSpeak_same_deps (before after : State) :
  speakDeps before = speakDeps after -> autoSpeak before after = after.
Proof.
  intros H. unfold autoSpeak. destruct (SpeakDeps_eq_dec _ _); [reflexivity | contradiction].
Qed.

Lemma autoSpeak_trace (before after : State) :
  exists fx, trace (autoSpeak before after) = trace after ++ fx.
Proof.
  unfold autoSpeak. repeat split_match; cbn.
  all: try (exists []; now rewrite app_nil_r).
  rewrite <- app_assoc. eauto.
Qed.

(** *** The interval *)

Lemma interval_enabled (s : State) (id : nat) :
  timerConsistent s = true ->
  enabled s (IntervalFires id) = true ->
  timerIntervalRef s = Some id.
Proof.
  intros H He. destruct (timerConsistent_cases s H) as [[Hr Hi] | (id' & l & Hr & Hi & Hid)];
    unfold enabled, findInterval in He; rewrite Hi in He; cbn in He.
  - discriminate.
  - destruct (id' =? id) eqn:E; [|discriminate]. apply Nat.eqb_eq in E. now subst.
Qed.

Lemma timeout_step (API_KEY : option string) (s : State) (id : nat) :
  timerConsistent s = true ->
  timerIntervalRef s = Some id ->
  timeLeft s <= 1 ->
  exists listening,
    intervals s = [mkInterval id listening]
    /\ (id =? 0) = false
    /\ step API_KEY s (IntervalFires id) = set_timeLeft 0 (handleTimeUp listening s).
Proof.
  intros H Hr Ht.
  destruct (running_interval s id H Hr) as (l & Hi & Hid).
  exists l. repeat split; try assumption.
  unfold step, enabled, fire, findInterval. rewrite Hi. cbn [find ivId].
  rewrite Nat.eqb_refl. cbn [isSome ivListening]. unfold intervalCallback.
  apply Nat.leb_le in Ht. rewrite Ht. now apply autoSpeak_result_shown.
Qed.

Lemma no_interval_no_fire (API_KEY : option string) (s : State) (id : nat) :
  intervals s = [] -> step API_KEY s (IntervalFires id) = s.
Proof. intros Hi. unfold step, enabled, findInterval. now rewrite Hi. Qed.

(** C3. When the interval fires with at most one second left, the
    controller clears the interval, sets the phase to evaluating and then
    to in-progress, and commits the result "Time's up! You need to be
    quicker." with [isCorrect = false]; the time left is 0, the score is
    unchanged, and [evaluateSpokenAnswer] is not called: the only effects
    are the cleared interval, possibly a stop of the recogniser, and the
    two phase changes. *)
Theorem timeout_commits_time_up (API_KEY : option string) (s : State) (id : nat) :
  timerConsistent s = true ->
  timerIntervalRef s = Some id ->
  timeLeft s <= 1 ->
  let s' := step API_KEY s (IntervalFires id) in
  timerIntervalRef s' = None /\ intervals s' = []
  /\ timeLeft s' = 0
  /\ phase s' = InProgress
  /\ evaluationResult s' = Some (mkResult false "Time's up! You need to be quicker.")
  /\ score s' = score s
  /\ pendingEval s' = pendingEval s
  /\ exists stop,
       (stop = [] \/ stop = [ERecognitionStop])
       /\ trace s' = trace s ++ [EClearInterval id] ++ stop
                              ++ [ESetPhase Evaluating; ESetPhase InProgress].
Proof.
  intros H Hr Ht s'. subst s'.
  destruct (timeout_step API_KEY s id H Hr Ht) as (l & Hi & Hid & ->).
  unfold handleTimeUp, stopTimer, when. rewrite Hr, Hid.
  destruct (recognitionRef s && l); cbn; rewrite Hi; cbn; rewrite Nat.eqb_refl; cbn;
    repeat (split; [reflexivity|]);
    [exists [ERecognitionStop] | exists []];
    (split; [auto|]); rewrite <- !app_assoc; reflexivity.
Qed.

Lemma timeout_commits_time_up_witness :
  timerConsistent lastSecond = true
  /\ timerIntervalRef lastSecond = Some 2
  /\ timeLeft lastSecond <= 1
  /\ phase (step key lastSecond (IntervalFires 2)) = InProgress
  /\ evaluationResult (step key lastSecond (IntervalFires 2))
     = Some (mkResult false "Time's up! You need to be quicker.").
Proof.
  assert (H1 : timerConsistent lastSecond = true) by (vm_compute; reflexivity).
  assert (H2 : timerIntervalRef lastSecond = Some 2) by (vm_compute; reflexivity).
  assert (H3 : timeLeft lastSecond <= 1) by (vm_compute; lia).
  pose proof (timeout_commits_time_up key lastSecond 2 H1 H2 H3) as L.
  cbv zeta in L. destruct L as (_ & _ & _ & Hp & He & _).
  split; [exact H1|]. split; [exact H2|]. split; [exact H3|].
  split; [exact Hp | exact He].
Defined.

(** C9. Stopping the timer twice, or any number of times, is the same as
    stopping it once, and stopping a timer that is not running changes
    nothing.  Stopping runs no callback: the phase and the evaluation
    result stay as they are.  After a stop no interval is live, so no
    firing is possible.  Starting clears the interval held by the ref
    before it registers the new one: exactly one interval is live
    afterwards, with the full 30 seconds.  Once the timeout has fired no
    interval is live, so it cannot fire a second time. *)
Theorem timer_stop_idempotent_start_single (API_KEY : option string) (s : State) :
  timerConsistent s = true ->
  stopTimer (stopTimer s) = stopTimer s
  /\ (forall n, Nat.iter (S n) stopTimer s = stopTimer s)
  /\ (timerIntervalRef s = None -> stopTimer s = s)
  /\ timerIntervalRef (stopTimer s) = None
  /\ intervals (stopTimer s) = []
  /\ evaluationResult (stopTimer s) = evaluationResult s
  /\ phase (stopTimer s) = phase s
  /\ (forall id, step API_KEY (stopTimer s) (IntervalFires id) = stopTimer s)
  /\ (forall listening,
        timerIntervalRef (startTimer listening s) = Some (S (intervalSeq s))
        /\ intervals (startTimer listening s) = [mkInterval (S (intervalSeq s)) listening]
        /\ timeLeft (startTimer listening s) = QUESTION_TIME_LIMIT)
  /\ (forall id id',
        enabled s (IntervalFires id) = true -> timeLeft s <= 1 ->
        let fired := step API_KEY s (IntervalFires id) in
        step API_KEY fired (IntervalFires id') = fired).
Proof.
  intros H. destruct (stopTimer_stopped s H) as [Hr' Hi'].
  split; [apply stopTimer_idem|].
  split.
  { induction n as [|n IH]; [reflexivity|].
    change (stopTimer (Nat.iter (S n) stopTimer s) = stopTimer s).
    rewrite IH. apply stopTimer_idem. }
  split; [intros Hr; unfold stopTimer; now rewrite Hr|].
  split; [exact Hr'|]. split; [exact Hi'|].
  split; [now stopTimer_frame|].
  split; [now stopTimer_frame|].
  split; [intros id; now apply no_interval_no_fire|].
  split.
  - intros l. unfold startTimer. cbn. rewrite Hi'. stopTimer_frame. repeat split.
  - intros id id' He Ht fired. subst fired.
    pose proof (interval_enabled s id H He) as Hr.
    destruct (timeout_step API_KEY s id H Hr Ht) as (l & Hi & Hid & ->).
    apply no_interval_no_fire.
    unfold handleTimeUp, stopTimer, when. rewrite Hr, Hid.
    destruct (recognitionRef s && l); cbn; rewrite Hi; cbn; now rewrite Nat.eqb_refl.
Qed.

Lemma timer_stop_idempotent_start_single_witness :
  timerConsistent listening = true
  /\ stopTimer (stopTimer listening) = stopTimer listening
  /\ intervals (stopTimer listening) = [].
Proof.
  assert (H : timerConsistent listening = true) by (vm_compute; reflexivity).
  pose proof (timer_stop_idempotent_start_single key listening H) as L.
  destruct L as (Hidem & _ & _ & _ & Hi & _).
  split; [exact H|]. split; [exact Hidem | exact Hi].
Defined.

(** *** The score *)

Lemma autoSpeak_score (before after : State) : score (autoSpeak before after) = score after.
Proof. now autoSpeak_frame. Qed.

Lemma fire_score (API_KEY : option string) (s : State) (e : Event) :
  sessionBoundary e = false ->
  score (fire API_KEY e s) = score s + (if commitsCorrect API_KEY s e then 1 else 0).
Proof.
  intros Hb. destruct e; try discriminate; cbn [fire commitsCorrect];
    unfold_handlers; repeat (progress cbn); repeat (split_match; cbn); lia.
Qed.

Lemma step_score (API_KEY : option string) (s : State) (e : Event) :
  sessionBoundary e = false ->
  score (step API_KEY s e) = score s + (if commitsCorrect API_KEY s e then 1 else 0).
Proof.
  intros Hb. unfold step. destruct (enabled s e) eqn:He.
  - rewrite autoSpeak_score. now apply fire_score.
  - destruct e; cbn [commitsCorrect]; try lia.
    cbn in He. apply Nat.ltb_ge in He. apply nth_error_None in He. rewrite He. lia.
Qed.

Lemma run_app (API_KEY : option string) (s : State) (es es' : list Event) :
  run API_KEY s (es ++ es') = run API_KEY (run API_KEY s es) es'.
Proof. apply fold_left_app. Qed.

Lemma run_score (API_KEY : option string) (es : list Event) (s : State) :
  forallb (fun e => negb (sessionBoundary e)) es = true ->
  score (run API_KEY s es) = score s + correctCommits API_KEY s es.
Proof.
  revert s. induction es as [|e es IH]; intros s Hes; cbn.
  - lia.
  - cbn in Hes. apply andb_true_iff in Hes as [He Hes]. apply negb_true_iff in He.
    fold (run API_KEY (step API_KEY s e) es).
    rewrite (IH _ Hes), (step_score _ _ _ He). lia.
Qed.

(** C4, as the code has it.  Along a run within one session (no
    generator result and no "Take Another Test" in it) the score is never
    negative, equals the score at the beginning plus the number of
    correct results committed since, is at every earlier point at most
    what it is later, and every single event either leaves it as it is or
    adds exactly one, the latter only when the event commits a correct
    evaluation result. *)
Theorem score_counts_correct_commits (API_KEY : option string) (s : State)
    (es : list Event) :
  forallb (fun e => negb (sessionBoundary e)) es = true ->
  0 <= score (run API_KEY s es)
  /\ score (run API_KEY s es) = score s + correctCommits API_KEY s es
  /\ (forall n, score (run API_KEY s (firstn n es)) <= score (run API_KEY s es))
  /\ (forall e, In e es -> forall t,
        score (step API_KEY t e) = score t
        \/ (score (step API_KEY t e) = score t + 1 /\ commitsCorrect API_KEY t e = true)).
Proof.
  intros Hes. split; [lia|]. split; [now apply run_score|]. split.
  - intros n. rewrite <- (firstn_skipn n es) at 2. rewrite run_app.
    rewrite (run_score API_KEY (skipn n es)); [lia|].
    rewrite <- (firstn_skipn n es), forallb_app in Hes.
    now apply andb_true_iff in Hes as [_ Hes].
  - intros e He t. rewrite forallb_forall in Hes. specialize (Hes e He).
    apply negb_true_iff in Hes. rewrite (step_score _ _ _ Hes).
    destruct (commitsCorrect API_KEY t e); [right; split; [lia|reflexivity] | left; lia].
Qed.

Lemma score_counts_correct_commits_witness :
  forallb (fun e => negb (sessionBoundary e)) lateAnswer = true
  /\ score (run key timedOut lateAnswer)
     = score timedOut + correctCommits key timedOut lateAnswer.
Proof.
  assert (H : forallb (fun e => negb (sessionBoundary e)) lateAnswer = true)
    by (vm_compute; reflexivity).
  pose proof (score_counts_correct_commits key timedOut lateAnswer H) as L.
  destruct L as (_ & Hs & _).
  split; [exact H | exact Hs].
Defined.

(** C4 fails as stated: the score can exceed [questionCount].  In the
    first run two questions are asked for, the generator sends three and
    all are answered correctly.  In the second run there are exactly two
    questions and the first one alone is scored three times. *)
Lemma score_exceeds_questionCount_counterexample :
  (let s := run key mounted threeForTwo in
   feasible key mounted threeForTwo = true
   /\ questionCount s = 2 /\ score s = 3 /\ ~ score s <= questionCount s)
  /\ (let s := run key mounted scoredThrice in
      feasible key mounted scoredThrice = true
      /\ questionCount s = 2 /\ length (questions s) = 2
      /\ currentQuestionIndex s = 0
      /\ score s = 3 /\ ~ score s <= questionCount s).
Proof.
  split; cbv zeta.
  - assert (Hq : questionCount (run key mounted threeForTwo) = 2) by (vm_compute; reflexivity).
    assert (Hs : score (run key mounted threeForTwo) = 3) by (vm_compute; reflexivity).
    split; [vm_compute; reflexivity|]. split; [exact Hq|]. split; [exact Hs|].
    rewrite Hq, Hs. lia.
  - assert (Hq : questionCount (run key mounted scoredThrice) = 2) by (vm_compute; reflexivity).
    assert (Hs : score (run key mounted scoredThrice) = 3) by (vm_compute; reflexivity).
    split; [vm_compute; reflexivity|]. split; [exact Hq|].
    split; [vm_compute; reflexivity|]. split; [vm_compute; reflexivity|].
    split; [exact Hs|]. rewrite Hq, Hs. lia.
Qed.

(** *** Final transcripts *)

Lemma final_transcript_step (API_KEY : option string) (s : State) (event : SpeechEvent)
    (currentQuestion : VoiceQuestion) :
  recognitionRef s = true ->
  truthy (finalTranscriptOf event) = true ->
  nth_error (questions s) (currentQuestionIndex s) = Some currentQuestion ->
  let call := mkEvalCall (question currentQuestion) (answer currentQuestion)
                (trim (finalTranscriptOf event)) in
  let s1 := step API_KEY s (RecognitionResult event) in
  pendingEval s1 = pendingEval s ++ [call]
  /\ phase s1 = Evaluating
  /\ score s1 = score s
  /\ evaluationResult s1 = evaluationResult s
  /\ exists pre, trace s1 = pre ++ [ESetPhase Evaluating; EEvaluate call].
Proof.
  intros Hrec Hfin Hq call s1. subst s1 call.
  unfold step, enabled. rewrite Hrec. cbn [fire]. unfold onresult, when. rewrite Hfin.
  rewrite autoSpeak_other_phase.
  2:{ unfold handleAnswerSubmission. cbn. rewrite Hq. reflexivity. }
  unfold handleAnswerSubmission. cbn. rewrite Hq. cbn. stopTimer_frame. cbn.
  repeat (split; [reflexivity|]).
  eexists. rewrite <- app_assoc. reflexivity.
Qed.

Lemma evaluation_settles (API_KEY : option string) (s : State) (l : list EvalCall)
    (c : EvalCall) (o : ApiOutcome EvalResult) :
  pendingEval s = l ++ [c] ->
  let r := evaluateSpokenAnswer API_KEY o (callQuestion c) (callAnswer c) (callSpoken c) in
  let s2 := step API_KEY s (EvaluatorSettles (length l) o) in
  evaluationResult s2 = Some r
  /\ score s2 = score s + (if isCorrect r then 1 else 0)
  /\ phase s2 = InProgress
  /\ pendingEval s2 = l.
Proof.
  intros Hp r s2. subst s2.
  unfold step, enabled. rewrite Hp, length_app. cbn [length].
  replace (length l <? length l + 1) with true by (symmetry; apply Nat.ltb_lt; lia).
  cbn [fire]. rewrite Hp, nth_error_snoc, removeAt_snoc. fold r.
  rewrite autoSpeak_result_shown
    by (unfold commitEvaluation, when; destruct (isCorrect r); reflexivity).
  unfold commitEvaluation, when. destruct (isCorrect r); cbn; repeat split; lia.
Qed.

(** C1, as the code has it.  When the time's-up result is on display and
    the recogniser then delivers a non-empty final transcript for the
    current question, the transcript, trimmed, is submitted to
    [evaluateSpokenAnswer] like any other; when that settles, its result
    replaces the committed one and the score grows by one if the result
    is correct, and stays if it is not. *)
Theorem late_transcript_is_evaluated (API_KEY : option string) (s : State)
    (event : SpeechEvent) (o : ApiOutcome EvalResult) (currentQuestion : VoiceQuestion) :
  recognitionRef s = true ->
  evaluationResult s = Some timeUpResult ->
  truthy (finalTranscriptOf event) = true ->
  nth_error (questions s) (currentQuestionIndex s) = Some currentQuestion ->
  let spoken := trim (finalTranscriptOf event) in
  let call := mkEvalCall (question currentQuestion) (answer currentQuestion) spoken in
  let r := evaluateSpokenAnswer API_KEY o
             (question currentQuestion) (answer currentQuestion) spoken in
  let s1 := step API_KEY s (RecognitionResult event) in
  let s2 := step API_KEY s1 (EvaluatorSettles (length (pendingEval s)) o) in
  pendingEval s1 = pendingEval s ++ [call]
  /\ (exists pre, trace s1 = pre ++ [ESetPhase Evaluating; EEvaluate call])
  /\ evaluationResult s2 = Some r
  /\ score s2 = score s + (if isCorrect r then 1 else 0)
  /\ phase s2 = InProgress.
Proof.
  intros Hrec _ Hfin Hq spoken call r s1 s2.
  destruct (final_transcript_step API_KEY s event currentQuestion Hrec Hfin Hq)
    as (Hp & _ & Hsc & _ & Htr).
  fold spoken call s1 in Hp, Hsc, Htr.
  destruct (evaluation_settles API_KEY s1 (pendingEval s) call o Hp) as (He & Hs & Hph & _).
  fold s2 in He, Hs, Hph. cbn [callQuestion callAnswer callSpoken call] in He, Hs.
  fold r in He, Hs. rewrite Hsc in Hs. auto.
Qed.

Lemma late_transcript_is_evaluated_witness :
  recognitionRef timedOut = true
  /\ evaluationResult timedOut = Some timeUpResult
  /\ truthy (finalTranscriptOf (mkSpeechEvent 0 [mkSpeechResult true "Paris"])) = true
  /\ nth_error (questions timedOut) (currentQuestionIndex timedOut) = Some q0
  /\ evaluationResult
       (step key (step key timedOut (final "Paris"))
          (EvaluatorSettles (length (pendingEval timedOut)) ApiFail))
     = Some (evaluateSpokenAnswer key ApiFail (question q0) (answer q0)
               (trim (finalTranscriptOf (mkSpeechEvent 0 [mkSpeechResult true "Paris"])))).
Proof.
  assert (H1 : recognitionRef timedOut = true) by (vm_compute; reflexivity).
  assert (H2 : evaluationResult timedOut = Some timeUpResult) by (vm_compute; reflexivity).
  assert (H3 : truthy (finalTranscriptOf (mkSpeechEvent 0 [mkSpeechResult true "Paris"])) = true)
    by (vm_compute; reflexivity).
  assert (H4 : nth_error (questions timedOut) (currentQuestionIndex timedOut) = Some q0)
    by (vm_compute; reflexivity).
  pose proof (late_transcript_is_evaluated key timedOut
                (mkSpeechEvent 0 [mkSpeechResult true "Paris"]) ApiFail q0 H1 H2 H3 H4) as L.
  cbv zeta in L. destruct L as (_ & _ & He & _).
  split; [exact H1|]. split; [exact H2|]. split; [exact H3|]. split; [exact H4 | exact He].
Defined.

(** C1 fails as stated.  The timer runs out while the recogniser listens:
    the time's-up result is committed with score 0.  The recogniser then
    delivers the final transcript "Paris" for the same question and the
    model judges it correct: the score becomes 1 and the feedback is the
    model's. *)
Lemma late_transcript_changes_score_counterexample :
  let after := run key timedOut lateAnswer in
  feasible key mounted (toTimedOut ++ lateAnswer) = true
  /\ score timedOut = 0
  /\ evaluationResult timedOut = Some (mkResult false "Time's up! You need to be quicker.")
  /\ currentQuestionIndex after = currentQuestionIndex timedOut
  /\ score after = 1
  /\ evaluationResult after = Some (mkResult true "Yes, Paris.")
  /\ score after <> score timedOut
  /\ evaluationResult after <> evaluationResult timedOut.
Proof.
  cbv zeta.
  assert (Hs0 : score timedOut = 0) by (vm_compute; reflexivity).
  assert (He0 : evaluationResult timedOut
                = Some (mkResult false "Time's up! You need to be quicker."))
    by (vm_compute; reflexivity).
  assert (Hs1 : score (run key timedOut lateAnswer) = 1) by (vm_compute; reflexivity).
  assert (He1 : evaluationResult (run key timedOut lateAnswer)
                = Some (mkResult true "Yes, Paris.")) by (vm_compute; reflexivity).
  split; [vm_compute; reflexivity|]. split; [exact Hs0|]. split; [exact He0|].
  split; [vm_compute; reflexivity|]. split; [exact Hs1|]. split; [exact He1|].
  split; [rewrite Hs0, Hs1; discriminate | rewrite He0, He1; discriminate].
Qed.

(** C6, as the code has it.  A result event whose final transcript is
    empty is not submitted to [evaluateSpokenAnswer] and commits nothing:
    only the displayed transcript (the interim text) and its finality
    flag (cleared) change.  The phase, the score, the evaluation result,
    the pending evaluations, the log and the timer are as before; the
    timer keeps running. *)
Theorem empty_final_transcript_is_dropped (API_KEY : option string) (s : State)
    (event : SpeechEvent) :
  recognitionRef s = true ->
  finalTranscriptOf event = EmptyString ->
  let s' := step API_KEY s (RecognitionResult event) in
  s' = set_isTranscriptFinal false (set_transcript (interimTranscriptOf event) s)
  /\ trace s' = trace s
  /\ pendingEval s' = pendingEval s
  /\ evaluationResult s' = evaluationResult s
  /\ phase s' = phase s
  /\ score s' = score s
  /\ timerIntervalRef s' = timerIntervalRef s
  /\ intervals s' = intervals s
  /\ timeLeft s' = timeLeft s.
Proof.
  intros Hrec Hfin s'.
  assert (Hs' : s' = set_isTranscriptFinal false (set_transcript (interimTranscriptOf event) s)).
  { subst s'. unfold step, enabled. rewrite Hrec. cbn [fire]. unfold onresult, when, or_else.
    rewrite Hfin. cbn [truthy]. now rewrite autoSpeak_same_deps. }
  rewrite Hs'. repeat split.
Qed.

Lemma empty_final_transcript_is_dropped_witness :
  recognitionRef listening = true
  /\ finalTranscriptOf emptyFinal = EmptyString
  /\ evaluationResult (step key listening (RecognitionResult emptyFinal))
     = evaluationResult listening.
Proof.
  assert (H1 : recognitionRef listening = true) by (vm_compute; reflexivity).
  assert (H2 : finalTranscriptOf emptyFinal = EmptyString) by (vm_compute; reflexivity).
  pose proof (empty_final_transcript_is_dropped key listening emptyFinal H1 H2) as L.
  cbv zeta in L. destruct L as (_ & _ & _ & He & _).
  split; [exact H1|]. split; [exact H2 | exact He].
Defined.

(** C6 fails as stated.  While the timer runs and the recogniser listens,
    a final result with empty text arrives: no evaluation result is
    committed and the timer keeps running, whereas the timeout commits
    the incorrect time's-up result and stops the timer. *)
Lemma empty_final_transcript_not_a_timeout_counterexample :
  let s' := step key listening (RecognitionResult emptyFinal) in
  enabled listening (RecognitionResult emptyFinal) = true
  /\ isFinal (mkSpeechResult true EmptyString) = true
  /\ finalTranscriptOf emptyFinal = EmptyString
  /\ evaluationResult s' = None
  /\ timerIntervalRef s' = Some 2
  /\ evaluationResult (handleTimeUp true listening) = Some timeUpResult
  /\ timerIntervalRef (handleTimeUp true listening) = None
  /\ evaluationResult s' <> evaluationResult (handleTimeUp true listening).
Proof.
  cbv zeta.
  assert (He : evaluationResult (step key listening (RecognitionResult emptyFinal)) = None)
    by (vm_compute; reflexivity).
  assert (Ht : evaluationResult (handleTimeUp true listening) = Some timeUpResult)
    by (vm_compute; reflexivity).
  split; [vm_compute; reflexivity|]. split; [reflexivity|].
  split; [vm_compute; reflexivity|]. split; [exact He|].
  split; [vm_compute; reflexivity|]. split; [exact Ht|].
  split; [vm_compute; reflexivity|]. rewrite He, Ht. discriminate.
Qed.

(** *** End Test *)

Lemma testView_phase (s : State) :
  testView s = true -> phase s = InProgress \/ phase s = Evaluating.
Proof. unfold testView. destruct (phase s); auto; discriminate. Qed.




(** *** Start *)

Lemma generateVoiceTestQuestions_failure (API_KEY : option string)
    (topic difficulty : string) (count : nat) :
  generateVoiceTestQuestions API_KEY ApiFail topic difficulty count = []
  /\ generateVoiceTestQuestions API_KEY (ApiOk []) topic difficulty count = [].
Proof. unfold generateVoiceTestQuestions. now destruct (keyMissing API_KEY). Qed.

(** C8. When "Start Test" is pressed and the generator then yields no
    questions (it failed, sent an empty list, or no key is configured),
    the phase goes to loading and back to setup, the failure is reported
    with an alert, and nothing of a session is set up: the questions, the
    index, the score, the transcript, its finality flag and the
    evaluation result are what they were before; the state differs from
    the one before the click in the log of effects only. *)
Theorem failed_generation_returns_to_setup (API_KEY : option string) (s : State)
    (o : ApiOutcome (list VoiceQuestion)) :
  enabled s ClickStart = true ->
  generateVoiceTestQuestions API_KEY o (topic s) (difficulty s) (questionCount s) = [] ->
  let call := mkGenCall (topic s) (difficulty s) (questionCount s) in
  let s1 := step API_KEY s ClickStart in
  let s2 := step API_KEY s1 (GeneratorSettles (length (pendingGen s)) o) in
  phase s1 = Loading
  /\ phase s2 = Setup
  /\ trace s2 = trace s ++ [ESetPhase Loading; EGenerate call;
                            EAlert "Failed to generate questions. Please try again.";
                            ESetPhase Setup]
  /\ questions s2 = questions s
  /\ currentQuestionIndex s2 = currentQuestionIndex s
  /\ score s2 = score s
  /\ transcript s2 = transcript s
  /\ isTranscriptFinal s2 = isTranscriptFinal s
  /\ evaluationResult s2 = evaluationResult s
  /\ s2 = set_trace (trace s2) s.
Proof.
  intros He Hgen call s1 s2.
  assert (Hphase : phase s = Setup).
  { cbn in He. destruct (phase s); try discriminate; reflexivity. }
  assert (Hs1 : s1 = startTest s).
  { subst s1. unfold step. rewrite He. cbn [fire]. now apply autoSpeak_other_phase. }
  assert (Hs2 : s2 = startTestResume [] (set_pendingGen (pendingGen s) s1)).
  { assert (Hpg : pendingGen s1 = pendingGen s ++ [call]) by (rewrite Hs1; reflexivity).
    subst s2. unfold step, enabled. rewrite Hpg, length_app. cbn [length].
    replace (length (pendingGen s) <? length (pendingGen s) + 1) with true
      by (symmetry; apply Nat.ltb_lt; lia).
    cbn [fire]. rewrite Hpg, nth_error_snoc, removeAt_snoc.
    cbn [genTopic genDifficulty genCount call].
    rewrite Hgen. now apply autoSpeak_other_phase. }
  rewrite Hs2, Hs1. unfold startTestResume, startTest. cbn.
  repeat (split; [first [reflexivity | now rewrite <- !app_assoc]|]).
  destruct s; cbn in *; subst. reflexivity.
Qed.

Lemma failed_generation_returns_to_setup_witness :
  enabled mounted ClickStart = true
  /\ generateVoiceTestQuestions key ApiFail
       (topic mounted) (difficulty mounted) (questionCount mounted) = []
  /\ phase (step key (step key mounted ClickStart)
              (GeneratorSettles (length (pendingGen mounted)) ApiFail)) = Setup
  /\ questions (step key (step key mounted ClickStart)
                  (GeneratorSettles (length (pendingGen mounted)) ApiFail))
     = questions mounted.
Proof.
  assert (H1 : enabled mounted ClickStart = true) by (vm_compute; reflexivity).
  assert (H2 : generateVoiceTestQuestions key ApiFail
                 (topic mounted) (difficulty mounted) (questionCount mounted) = [])
    by (vm_compute; reflexivity).
  pose proof (failed_generation_returns_to_setup key mounted ApiFail H1 H2) as L.
  cbv zeta in L. destruct L as (_ & Hp & _ & Hq & _).
  split; [exact H1|]. split; [exact H2|]. split; [exact Hp | exact Hq].
Defined.

(** *** Retry *)

Lemma retryRendered_inv (s : State) :
  retryRendered s = true ->
  (phase s = InProgress \/ phase s = Evaluating)
  /\ (exists r, evaluationResult s = Some r /\ isCorrect r = false)
  /\ 0 < timeLeft s.
Proof.
  unfold retryRendered, resultPanel. intros H.
  apply andb_true_iff in H as [Hview H]. split; [now apply testView_phase|].
  destruct (truthy (transcript s) || isSome (evaluationResult s)); [|discriminate].
  destruct (evaluationResult s) as [r|]; [|discriminate].
  apply andb_true_iff in H as [Hr Ht]. apply negb_true_iff in Hr. apply Nat.ltb_lt in Ht.
  eauto.
Qed.

(** What "Try Again" does.  The button is there only when the result on
    display is incorrect and time is left.  Pressing it clears the
    transcript and the result, starts the timer anew with 30 seconds and
    one live interval, starts the recogniser unless it is missing or
    still listening, and leaves the question index, the questions, the
    score and the phase alone.  Because the result went from present to
    absent, the auto-speak effect runs: in the in-progress phase the
    question is read out again. *)
Lemma retry_restarts_and_respeaks (API_KEY : option string) (s : State) :
  timerConsistent s = true ->
  enabled s ClickRetry = true ->
  let s' := step API_KEY s ClickRetry in
  (exists r, evaluationResult s = Some r /\ isCorrect r = false)
  /\ 0 < timeLeft s
  /\ transcript s' = EmptyString
  /\ isTranscriptFinal s' = false
  /\ evaluationResult s' = None
  /\ timeLeft s' = 30
  /\ timerIntervalRef s' = Some (S (intervalSeq s))
  /\ intervals s' = [mkInterval (S (intervalSeq s)) (isListening s)]
  /\ currentQuestionIndex s' = currentQuestionIndex s
  /\ questions s' = questions s
  /\ score s' = score s
  /\ phase s' = phase s
  /\ (recognitionRef s = true -> isListening s = false ->
      exists pre post, trace s' = trace s ++ pre ++ [ERecognitionStart] ++ post)
  /\ (forall currentQuestion,
        phase s = InProgress ->
        nth_error (questions s) (currentQuestionIndex s) = Some currentQuestion ->
        utterance s' = Some (mkUtterance (question currentQuestion) (isListening s))
        /\ exists pre,
             trace s' = trace s ++ pre
                        ++ [ESpeechCancel; ESpeechSpeak (question currentQuestion)]).
Proof.
  intros H He s'. cbn [enabled] in He.
  destruct (retryRendered_inv s He) as (Hph & (r & Hres & Hr) & Ht).
  assert (Hs' : s' = autoSpeak s (retryQuestion s)).
  { subst s'. unfold step. cbn [enabled]. now rewrite He. }
  set (cleared := set_evaluationResult None
                    (set_isTranscriptFinal false (set_transcript EmptyString s))).
  assert (Hc : timerConsistent cleared = true) by exact H.
  destruct (stopTimer_stopped cleared Hc) as [_ Hi].
  destruct (stopTimer_trace cleared) as [fx Hfx].
  split; [eauto|]. split; [exact Ht|].
  rewrite Hs'. autoSpeak_frame. unfold retryQuestion, when, startTimer. fold cleared.
  do 3 (split; [destruct (recognitionRef s && negb (isListening s)); cbn;
                now stopTimer_frame|]).
  split; [destruct (recognitionRef s && negb (isListening s)); reflexivity|].
  split; [destruct (recognitionRef s && negb (isListening s)); cbn; now stopTimer_frame|].
  split; [destruct (recognitionRef s && negb (isListening s)); cbn; rewrite Hi;
          now stopTimer_frame|].
  do 4 (split; [destruct (recognitionRef s && negb (isListening s)); cbn;
                now stopTimer_frame|]).
  split.
  - intros Hrec Hlis. rewrite Hrec, Hlis. cbn [andb negb].
    match goal with |- context [autoSpeak s ?a] =>
      destruct (autoSpeak_trace s a) as [post Hpost]; rewrite Hpost end.
    cbn. rewrite Hfx. cbn.
    exists (fx ++ [ESetInterval (S (intervalSeq (stopTimer cleared)))]), post.
    now rewrite <- !app_assoc.
  - intros q Hin Hq. unfold autoSpeak.
    destruct (SpeakDeps_eq_dec _ _) as [E|_].
    { exfalso. unfold speakDeps in E. rewrite Hres in E.
      destruct (recognitionRef s && negb (isListening s)); cbn in E;
        revert E; stopTimer_frame; cbn; congruence. }
    destruct (recognitionRef s && negb (isListening s)); cbn; stopTimer_frame; cbn;
      rewrite Hin, Hq; cbn;
      (destruct (questions s) as [|q' qs];
       [destruct (currentQuestionIndex s); discriminate|]); cbn;
      (split; [reflexivity|]); rewrite Hfx; cbn; rewrite <- !app_assoc; cbn;
      first [ exists (fx ++ [ESetInterval (S (intervalSeq s)); ERecognitionStart]);
              now rewrite <- !app_assoc
            | exists (fx ++ [ESetInterval (S (intervalSeq s))]);
              now rewrite <- !app_assoc ].
Qed.

(** C5, on a session.  A wrong answer has been judged incorrect with 10
    seconds left, so "Try Again" is on screen.  Pressing it clears the
    transcript and the result, restarts the timer with 30 seconds, starts
    the recogniser and keeps the question index; and the question is
    read out again, which C5 says does not happen: the effects are the
    new interval, the start of the recogniser, and a cancel and a speak
    of the speech synthesis. *)
Theorem retry_respeaks_question :
  let s' := step key wrongAnswer ClickRetry in
  feasible key mounted (toWrongAnswer ++ [ClickRetry]) = true
  /\ evaluationResult wrongAnswer = Some (mkResult false "No, it is Paris.")
  /\ timeLeft wrongAnswer = 10
  /\ transcript s' = EmptyString
  /\ evaluationResult s' = None
  /\ timeLeft s' = 30
  /\ currentQuestionIndex s' = currentQuestionIndex wrongAnswer
  /\ skipn (length (trace wrongAnswer)) (trace s')
     = [ESetInterval 3; ERecognitionStart; ESpeechCancel;
        ESpeechSpeak "Capital of France?"]
  /\ utterance s' = Some (mkUtterance "Capital of France?" false).
Proof.
  cbv zeta. do 8 (split; [vm_compute; reflexivity|]). vm_compute; reflexivity.
Qed.
